(** * BertClassifier: classification head, default compilation, config and presets

    A shallow embedding of [keras_nlp/models/bert/bert_classifier.py].

    The module is a thin layer over Keras: the constructor wires the backbone's
    pooled output through a [Dropout] and a [Dense] layer, calls the parent
    constructor, stores four attributes and compiles the model; [get_config]
    extends the parent's dictionary; [presets] deep-copies the union of two
    module-level dictionaries.

    - Python values are a small tagged union ([val]); dictionaries live in a
      store ([heap]) and are referred to by location, so that aliasing between
      the preset tables and what [presets] returns is visible.
    - Python floats are IEEE binary64: Rocq's primitive [float].
    - Exceptions are an error monad ([result]).
    - The calls the constructor delegates to (Keras layer constructors, the
      parent class, [compile]) are the fields of the class [Delegates]: the
      source does not say when they raise, only that they are called, in which
      order and with which arguments. *)

From Stdlib Require Import ZArith String Floats.
From stdpp Require Import base option gmap strings list fin_maps.

Set Warnings "-inexact-float".
Local Open Scope Z_scope.

(** ** Python values *)

Definition loc := positive.

Inductive val : Type :=
  | VNone
  | VBool (b : bool)
  | VInt (n : Z)
  | VFloat (x : float)
  | VStr (s : string)
  | VRef (l : loc).

(** A dictionary object: string keys, as in every table of this module. *)
Abbreviation dict := (gmap string val).
(** The store of dictionary objects. *)
Abbreviation heap := (gmap loc (gmap string val)).

(** [v is not None] *)
Definition is_not_None (v : val) : bool :=
  match v with
  | VNone => false
  | _ => true
  end.

(** Python's truth value testing, [bool(v)]: [None], [False], zero, the empty
    string and an empty container are false. *)
Definition truthy (h : heap) (v : val) : bool :=
  match v with
  | VNone => false
  | VBool b => b
  | VInt n => negb (n =? 0)
  | VFloat x => negb (PrimFloat.eqb x 0%float)
  | VStr s => negb (String.eqb s "")
  | VRef l =>
      match h !! l with
      | Some d => negb (bool_decide (d = ∅))
      | None => true
      end
  end.

(** ** Exceptions *)

Inductive exn : Type :=
  | KeyError (key : string)
  | ValueError (msg : string)
  | TypeError (msg : string)
  | RuntimeError (msg : string).

Inductive result (A : Type) : Type :=
  | Ok (a : A)
  | Raise (e : exn).
Arguments Ok {A} a.
Arguments Raise {A} e.

#[global] Instance result_ret : MRet result := fun A a => Ok a.
#[global] Instance result_bind : MBind result := fun A B k c =>
  match c with
  | Ok a => k a
  | Raise e => Raise e
  end.

(** [d[key]] on a dictionary value. *)
Definition getitem {A : Type} (d : gmap string A) (key : string) : result A :=
  match d !! key with
  | Some a => Ok a
  | None => Raise (KeyError key)
  end.

(** ** The part of Keras the module builds on *)

Module Keras.

Inductive initializer : Type :=
  | TruncatedNormal (stddev : float)
  | GlorotUniform
  | Zeros.

(** The two layers the head is made of, with the arguments the source passes
    to their constructors. *)
Inductive layer : Type :=
  | Dropout (rate : val)
  | Dense (units : val) (kernel_initializer : initializer) (name : string).

(** A symbolic shape; [None] is a dimension unknown until a batch arrives. *)
Definition shape := list (option Z).

(** A symbolic tensor of the functional API: the output of an upstream model
    or a layer applied to a tensor. *)
Inductive tensor : Type :=
  | Sym (name : string) (s : shape)
  | Apply (l : layer) (x : tensor).

(** Shape inference of the two layers. [Dropout] keeps the shape; [Dense]
    needs a known last dimension and replaces it by [units]. *)
Definition compute_output_shape (l : layer) (s : shape) : option shape :=
  match l with
  | Dropout _ => Some s
  | Dense (VInt n) _ _ =>
      match last s with
      | Some (Some _) => Some (removelast s ++ [Some n])
      | _ => None
      end
  | Dense _ _ _ => None
  end.

Fixpoint shape_of (t : tensor) : option shape :=
  match t with
  | Sym _ s => Some s
  | Apply l x => s ← shape_of x; compute_output_shape l s
  end.

(** The shape of the value a tensor takes on a batch of [b] examples: the
    leading dimension is the batch size, the other unknown dimensions stay
    unknown. *)
Definition bind_batch (b : Z) (s : shape) : shape :=
  match s with
  | None :: s' => Some b :: s'
  | _ => s
  end.

Definition shape_on_batch (b : Z) (t : tensor) : option shape :=
  bind_batch b <$> shape_of t.

Inductive loss : Type :=
  | SparseCategoricalCrossentropy (from_logits : bool)
  | CategoricalCrossentropy (from_logits : bool)
  | MeanSquaredError.

Inductive optimizer : Type :=
  | Adam (learning_rate : float)
  | SGD (learning_rate : float)
  | OptimizerByName (name : string).

Inductive metric : Type :=
  | SparseCategoricalAccuracy
  | Accuracy.

(** The arguments of [Model.compile]. *)
Record compile_args : Type := CompileArgs {
  c_optimizer : optimizer;
  c_loss : option loss;
  c_metrics : list metric;
  c_jit_compile : option bool;
}.

(** [Model.compile]'s keyword defaults: [optimizer="rmsprop"], no loss, no
    metrics, [jit_compile=None]. *)
Definition compile_defaults : compile_args :=
  {| c_optimizer := OptimizerByName "rmsprop";
     c_loss := None;
     c_metrics := [];
     c_jit_compile := None |}.

End Keras.

Import Keras.

(** ** The backbone *)

(** [backbone.input] is the dictionary of the backbone's input tensors;
    calling the backbone on it yields a dictionary of named outputs. *)
Record Backbone : Type := {
  input : gmap string tensor;
  call : gmap string tensor → result (gmap string tensor);
}.

(** Modelled from the spec: [bert_kernel_initializer] of [bert_backbone.py],
    which is not among the sources: the fixed truncated-normal scheme with
    standard deviation 0.02. *)
Definition bert_kernel_initializer : initializer :=
  TruncatedNormal 0.02%float.

(** ** The classifier object *)

(** The first four fields hold the arguments of the call
    [super().__init__(inputs=, outputs=, include_preprocessing=, **kwargs)];
    the next four are the attributes the constructor sets itself; [compiled]
    is the state [self.compile] leaves. *)
Record BertClassifier : Type := {
  inputs : gmap string tensor;
  outputs : tensor;
  include_preprocessing : bool;
  kwargs : dict;
  backbone : Backbone;
  preprocessor : val;
  num_classes : val;
  dropout : val;
  compiled : option compile_args;
}.

(** Everything the module calls and does not define. Each call may raise; the
    embedding assumes nothing about when. *)
Class Delegates : Type := {
  (** [keras.layers.Dropout(rate)] *)
  Dropout_init : val → result unit;
  (** [keras.layers.Dense(units, kernel_initializer=..., name=...)] *)
  Dense_init : val → initializer → string → result unit;
  (** applying a layer to a symbolic tensor *)
  layer_call : layer → tensor → result unit;
  (** [Task.__init__(inputs=, outputs=, include_preprocessing=, **kwargs)] *)
  Task_init : gmap string tensor → tensor → bool → dict → result unit;
  (** [Model.compile(...)] on the object built so far *)
  Model_compile : BertClassifier → compile_args → result unit;
  (** [keras_nlp.utils.keras_utils.is_xla_compatible] *)
  is_xla_compatible : BertClassifier → bool;
  (** [Task.get_config] *)
  Task_get_config : BertClassifier → dict;
}.

Section Classifier.
Context {D : Delegates}.

Definition set_compiled (self : BertClassifier) (args : compile_args)
    : BertClassifier :=
  {| inputs := inputs self;
     outputs := outputs self;
     include_preprocessing := include_preprocessing self;
     kwargs := kwargs self;
     backbone := backbone self;
     preprocessor := preprocessor self;
     num_classes := num_classes self;
     dropout := dropout self;
     compiled := Some args |}.

(** [self.compile(...)]: Keras replaces the whole compile state. *)
Definition compile (self : BertClassifier) (args : compile_args)
    : result BertClassifier :=
  _ ← Model_compile self args;
  mret (set_compiled self args).

(** The arguments of the default compilation, for the object [self]. *)
Definition default_compile_args (self : BertClassifier) : compile_args :=
  {| c_optimizer := Adam 5e-5%float;
     c_loss := Some (SparseCategoricalCrossentropy true);
     c_metrics := [SparseCategoricalAccuracy];
     c_jit_compile := Some (is_xla_compatible self) |}.

(** The head: dropout on the pooled output, then the dense projection. *)
Definition head (num_classes dropout : val) (pooled : tensor) : tensor :=
  Apply (Dense num_classes bert_kernel_initializer "logits")
        (Apply (Dropout dropout) pooled).

(** The object as it stands when the attribute assignments are done and
    [compile] has not run yet. *)
Definition uncompiled (backbone : Backbone)
    (num_classes dropout preprocessor : val) (kwargs : dict)
    (pooled : tensor) : BertClassifier :=
  {| inputs := input backbone;
     outputs := head num_classes dropout pooled;
     include_preprocessing := is_not_None preprocessor;
     kwargs := kwargs;
     backbone := backbone;
     preprocessor := preprocessor;
     num_classes := num_classes;
     dropout := dropout;
     compiled := None |}.

Definition __init__ (backbone : Backbone)
    (num_classes dropout preprocessor : val) (kwargs : dict)
    : result BertClassifier :=
  let inputs := input backbone in
  outs ← call backbone inputs;
  pooled0 ← getitem outs "pooled_output";
  _ ← Dropout_init dropout;
  _ ← layer_call (Dropout dropout) pooled0;
  let pooled := Apply (Dropout dropout) pooled0 in
  _ ← Dense_init num_classes bert_kernel_initializer "logits";
  _ ← layer_call (Dense num_classes bert_kernel_initializer "logits") pooled;
  let outputs := Apply (Dense num_classes bert_kernel_initializer "logits") pooled in
  (* Instantiate using Functional API Model constructor *)
  _ ← Task_init inputs outputs (is_not_None preprocessor) kwargs;
  (* All references to `self` below this line *)
  let self := uncompiled backbone num_classes dropout preprocessor kwargs pooled0 in
  (* Default compilation *)
  compile self (default_compile_args self).

(** The keyword defaults of the constructor. *)
Definition default_num_classes : val := VInt 2.
Definition default_dropout : val := VFloat 0.1%float.
Definition default_preprocessor : val := VNone.

(** The object a successful construction returns. *)
Definition constructed (backbone : Backbone)
    (num_classes dropout preprocessor : val) (kwargs : dict)
    (pooled : tensor) : BertClassifier :=
  let self := uncompiled backbone num_classes dropout preprocessor kwargs pooled in
  set_compiled self (default_compile_args self).

(** Every call the constructor delegates to, with the arguments it passes,
    goes through. *)
Definition accepted (backbone : Backbone)
    (num_classes dropout preprocessor : val) (kwargs : dict)
    (pooled : tensor) : Prop :=
  let self := uncompiled backbone num_classes dropout preprocessor kwargs pooled in
  Dropout_init dropout = Ok () ∧
  layer_call (Dropout dropout) pooled = Ok () ∧
  Dense_init num_classes bert_kernel_initializer "logits" = Ok () ∧
  layer_call (Dense num_classes bert_kernel_initializer "logits")
             (Apply (Dropout dropout) pooled) = Ok () ∧
  Task_init (input backbone) (head num_classes dropout pooled)
            (is_not_None preprocessor) kwargs = Ok () ∧
  Model_compile self (default_compile_args self) = Ok ().

(** One of the calls the constructor delegates to raises [e]. *)
Definition delegate_raises (backbone : Backbone)
    (num_classes dropout preprocessor : val) (kwargs : dict)
    (pooled : tensor) (e : exn) : Prop :=
  let self := uncompiled backbone num_classes dropout preprocessor kwargs pooled in
  Dropout_init dropout = Raise e ∨
  layer_call (Dropout dropout) pooled = Raise e ∨
  Dense_init num_classes bert_kernel_initializer "logits" = Raise e ∨
  layer_call (Dense num_classes bert_kernel_initializer "logits")
             (Apply (Dropout dropout) pooled) = Raise e ∨
  Task_init (input backbone) (head num_classes dropout pooled)
            (is_not_None preprocessor) kwargs = Raise e ∨
  Model_compile self (default_compile_args self) = Raise e.

Definition get_config (self : BertClassifier) : dict :=
  let config := Task_get_config self in
  <["dropout" := dropout self]> (<["num_classes" := num_classes self]> config).

(** Modelled from the spec: [Task.from_config] of [task.py], which is not among
    the sources: the standard reconstruction contract, the constructor called
    on the configuration's entries as keyword arguments, with the same
    backbone and the same preprocessor. A hyperparameter the configuration
    lacks takes the constructor's default. *)
Definition from_config (backbone : Backbone) (preprocessor : val)
    (config : dict) : result BertClassifier :=
  __init__ backbone
    (default default_num_classes (config !! "num_classes"))
    (default default_dropout (config !! "dropout"))
    preprocessor
    (delete "backbone" (delete "preprocessor"
      (delete "num_classes" (delete "dropout" config)))).

End Classifier.

(** ** The store: dictionary objects, merging and deep copies

    The preset tables are dictionaries of dictionaries of atomic values. The
    order in which a dictionary's items are visited only decides which new
    location each copy gets. *)

(** [{...}]: a new dictionary object. *)
Definition alloc (d : dict) (h : heap) : loc * heap :=
  let l := fresh (dom h) in (l, <[l := d]> h).

(** [obj[key] = v] on the dictionary at [l]. *)
Definition setitem (l : loc) (key : string) (v : val) (h : heap) : option heap :=
  d ← h !! l; Some (<[l := <[key := v]> d]> h).

(** [{**a, **b}]: the entries of [a], then those of [b] over them. *)
Definition dict_unpack (a b : dict) : dict := b ∪ a.

(** [copy.deepcopy]'s memo: which object has been copied to where. *)
Abbreviation memo := (gmap loc loc).

(** The loop of [copy._deepcopy_dict]:
    [for key, value in x.items(): y[key] = deepcopy(value, memo)]. *)
Fixpoint copy_items (rec : val → heap * memo → option (val * (heap * memo)))
    (y : loc) (items : list (string * val)) (st : heap * memo)
    : option (heap * memo) :=
  match items with
  | [] => Some st
  | (key, value) :: items' =>
      '(value', (h, m)) ← rec value st;
      h' ← setitem y key value' h;
      copy_items rec y items' (h', m)
  end.

(** [copy.deepcopy(x, memo)]. Atomic values are returned as they are; a
    dictionary already in the memo yields its copy; otherwise a new dictionary
    is allocated, entered in the memo and filled. [fuel] bounds the depth of
    the recursion. *)
Fixpoint deepcopy_rec (fuel : nat) (x : val) (st : heap * memo)
    : option (val * (heap * memo)) :=
  match x with
  | VRef l =>
      match st.2 !! l with
      | Some y => Some (VRef y, st)
      | None =>
          match fuel with
          | O => None
          | S n =>
              d ← st.1 !! l;
              let y := fresh (dom st.1) in
              st' ← copy_items (deepcopy_rec n) y (map_to_list d)
                     (<[y := ∅]> st.1, <[l := y]> st.2);
              Some (VRef y, st')
          end
      end
  | _ => Some (x, st)
  end.

(** [copy.deepcopy(x)]: every nesting level enters one more object of the
    store in the memo, so the number of objects is fuel enough. *)
Definition deepcopy (x : val) (h : heap) : option (val * heap) :=
  '(y, (h', _)) ← deepcopy_rec (size h) x (h, ∅); Some (y, h').

(** [BertClassifier.presets], with the two tables of [bert_presets.py] given
    by the locations the module globals are bound to. *)
Definition presets (backbone_presets classifier_presets : loc) (h : heap)
    : option (val * heap) :=
  a ← h !! backbone_presets;
  b ← h !! classifier_presets;
  let '(merged, h1) := alloc (dict_unpack a b) h in
  deepcopy (VRef merged) h1.

(** Modelled from the spec: [Task.from_preset] of [task.py], which is not
    among the sources: reconstruction by name consults the merged preset
    table, [cls.presets[preset]], and builds the classifier on the backbone
    the entry describes. [backbone_of] stands for the backbone class's own
    reconstruction from the entry. *)
Definition from_preset {D : Delegates}
    (backbone_of : heap → val → result Backbone)
    (backbone_presets classifier_presets : loc)
    (preset : string) (num_classes preprocessor : val) (kwargs : dict)
    (h : heap) : option (result BertClassifier * heap) :=
  '(table, h') ← presets backbone_presets classifier_presets h;
  match table with
  | VRef t =>
      d ← h' !! t;
      Some (metadata ← getitem d preset;
            backbone ← backbone_of h' metadata;
            __init__ backbone num_classes default_dropout preprocessor kwargs,
            h')
  | _ => None
  end.

(** *** Observing and mutating a structure in the store *)

(** [v[k1][k2]...] *)
Fixpoint getpath (h : heap) (v : val) (keys : list string) : option val :=
  match keys with
  | [] => Some v
  | k :: keys' =>
      match v with
      | VRef l => d ← h !! l; x ← d !! k; getpath h x keys'
      | _ => None
      end
  end.

(** What a value shows of itself: an atomic value as it is, a dictionary its
    key set. *)
Inductive view : Type :=
  | Atom (v : val)
  | Keys (ks : gset string).

Definition view_of (h : heap) (v : val) : option view :=
  match v with
  | VRef l => d ← h !! l; Some (Keys (dom d))
  | _ => Some (Atom v)
  end.

(** What is seen at the end of a key path. Two structures with the same
    observation at every path have the same contents. *)
Definition observe (h : heap) (v : val) (keys : list string) : option view :=
  x ← getpath h v keys; view_of h x.

(** The objects a value leads to. *)
Definition reachable (h : heap) (v : val) (l : loc) : Prop :=
  ∃ keys, getpath h v keys = Some (VRef l).

(** In-place changes of a dictionary. *)
Inductive mutation : Type :=
  | SetItem (l : loc) (key : string) (v : val)
  | DelItem (l : loc) (key : string)
  | Clear (l : loc).

Definition target (μ : mutation) : loc :=
  match μ with
  | SetItem l _ _ | DelItem l _ | Clear l => l
  end.

Definition mutate (h : heap) (μ : mutation) : heap :=
  match μ with
  | SetItem l key v => alter (insert key v) l h
  | DelItem l key => alter (delete key) l h
  | Clear l => alter (λ _, ∅) l h
  end.

Definition mutate_all (μs : list mutation) (h : heap) : heap :=
  foldl mutate h μs.

(** *** Well-formed stores *)

(** A value refers to nothing outside the store. *)
Definition val_in (h : heap) (v : val) : Prop :=
  match v with
  | VRef l => l ∈ dom h
  | _ => True
  end.

(** No dictionary of the store holds a dangling reference. *)
Definition closed (h : heap) : Prop :=
  map_Forall (λ _ d, map_Forall (λ _ v, val_in h v) d) h.

(** *** The invariant of a deep copy *)

(** The copy of a value under the memo. *)
Definition rename (m : memo) (v : val) : option val :=
  match v with
  | VRef l => y ← m !! l; Some (VRef y)
  | _ => Some v
  end.

(** [d'] is [d] with every value replaced by its copy. *)
Definition renamed (m : memo) (d d' : dict) : Prop :=
  ∀ k, d' !! k = (d !! k) ≫= rename m.

(** The dictionary at [y] is the finished copy of the one at [l]. *)
Definition copied (h0 h : heap) (m : memo) (l y : loc) : Prop :=
  ∃ d d', h0 !! l = Some d ∧ h !! y = Some d' ∧ dom d' = dom d ∧ renamed m d d'.

(** The memo maps objects of the structure being copied, which lies in [h0],
    to objects allocated since the copy started from the store [hs]. *)
Definition memo_ok (h0 hs h : heap) (m : memo) : Prop :=
  ∀ l y, m !! l = Some y → l ∈ dom h0 ∧ y ∈ dom h ∧ y ∉ dom hs.

(** What a call [deepcopy(x, memo)] from the state [(h, m)] leaves: the store
    and the memo only grow, the result is the copy of [x] under the new memo,
    and every object entered in the memo by the call is a finished copy,
    allocated by the call. *)
Definition copy_post (h0 hs h : heap) (m : memo) (x : val)
    (res : val * (heap * memo)) : Prop :=
  h ⊆ res.2.1 ∧ m ⊆ res.2.2 ∧ memo_ok h0 hs res.2.1 res.2.2 ∧
  rename res.2.2 x = Some res.1 ∧
  ∀ l y, (res.2.2) !! l = Some y → m !! l = None →
    (y ∉ dom h) ∧ copied h0 res.2.1 res.2.2 l y.

#[global] Instance val_in_dec (h : heap) (v : val) : Decision (val_in h v).
Proof. destruct v; simpl; apply _. Defined.

#[global] Instance closed_dec (h : heap) : Decision (closed h).
Proof. unfold closed. apply _. Defined.

(** ** Concrete collaborators, to run the definitions on *)

(** A framework that accepts everything. *)
Definition permissive : Delegates :=
  {| Dropout_init := λ _, Ok ();
     Dense_init := λ _ _ _, Ok ();
     layer_call := λ _ _, Ok ();
     Task_init := λ _ _ _ _, Ok ();
     Model_compile := λ _ _, Ok ();
     is_xla_compatible := λ _, true;
     Task_get_config := λ self,
       {[ "name" := VStr "bert_classifier"; "trainable" := VBool true ]} |}.

(** A strict framework, to run the constructor against: its layer
    constructors accept a float dropout rate within [0, 1] and a positive
    integer number of units, and nothing else. *)
Definition checking : Delegates :=
  {| Dropout_init := λ rate,
       match rate with
       | VFloat x =>
           if (PrimFloat.leb 0 x && PrimFloat.leb x 1)%bool then Ok ()
           else Raise (ValueError "Invalid value received for `rate`")
       | _ => Raise (TypeError "rate")
       end;
     Dense_init := λ units _ _,
       match units with
       | VInt n =>
           if 0 <? n then Ok ()
           else Raise (ValueError "Received an invalid value for `units`")
       | _ => Raise (TypeError "units")
       end;
     layer_call := λ l x,
       match shape_of (Apply l x) with
       | Some _ => Ok ()
       | None => Raise (ValueError "incompatible input shape")
       end;
     Task_init := λ _ _ _ _, Ok ();
     Model_compile := λ _ _, Ok ();
     is_xla_compatible := λ _, true;
     Task_get_config := λ self,
       {[ "name" := VStr "bert_classifier"; "trainable" := VBool true ]} |}.

(** The backbone of the tests: hidden dimension 64. *)
Definition small_pooled : tensor := Sym "pooled_output" [None; Some 64].

Definition small_outputs : gmap string tensor :=
  {[ "sequence_output" := Sym "sequence_output" [None; None; Some 64];
     "pooled_output" := small_pooled ]}.

Definition small_backbone : Backbone :=
  {| input :=
       {[ "token_ids" := Sym "token_ids" [None; None];
          "segment_ids" := Sym "segment_ids" [None; None];
          "padding_mask" := Sym "padding_mask" [None; None] ]};
     call := λ _, Ok small_outputs |}.

(** The classifier of the tests: four classes, no preprocessor. *)
Definition small_classifier : BertClassifier :=
  constructed (D:=checking) small_backbone (VInt 4) (VFloat 0.1) VNone ∅
    small_pooled.

(** What [from_config] builds from the configuration of [small_classifier]. *)
Definition small_classifier_again : BertClassifier :=
  constructed (D:=checking) small_backbone (VInt 4) (VFloat 0.1) VNone
    {[ "name" := VStr "bert_classifier"; "trainable" := VBool true ]}
    small_pooled.

(** A classifier with out-of-range hyperparameters and a preprocessor that is
    not [None] but false as a truth value. *)
Definition odd_classifier : BertClassifier :=
  constructed (D:=permissive) small_backbone (VInt 0) (VFloat 1.5) (VStr "") ∅
    small_pooled.

(** A registry in the store: the backbone table at 1, the classifier table at
    2; both have an entry [bert_tiny], and the two entries share their
    [config] dictionary. *)
Definition registry : heap :=
  {[ 1%positive := {[ "bert_tiny" := VRef 3%positive; "bert_base" := VRef 4%positive ]};
     2%positive := {[ "bert_tiny" := VRef 5%positive; "bert_tiny_sst2" := VRef 5%positive ]};
     3%positive := {[ "config" := VRef 6%positive; "description" := VStr "tiny" ]};
     4%positive := {[ "description" := VStr "base" ]};
     5%positive := {[ "config" := VRef 6%positive; "description" := VStr "tiny, sst2" ]};
     6%positive := {[ "num_layers" := VInt 2; "dropout" := VFloat 0.1 ]} ]}.

Definition registry_backbone_presets : dict :=
  {[ "bert_tiny" := VRef 3%positive; "bert_base" := VRef 4%positive ]}.

Definition registry_classifier_presets : dict :=
  {[ "bert_tiny" := VRef 5%positive; "bert_tiny_sst2" := VRef 5%positive ]}.

(** * Properties *)

(** ** Deep copies *)

Lemma rename_mono (m m' : memo) (v v' : val) :
  m ⊆ m' → rename m v = Some v' → rename m' v = Some v'.
Proof.
  intros Hm. destruct v; simpl; try done.
  destruct (m !! l) as [y|] eqn:E; simpl; [|done].
  intros [= <-]. by rewrite (lookup_weaken _ _ _ _ E Hm).
Qed.

Lemma renamed_mono (m m' : memo) (d d' : dict) :
  m ⊆ m' → dom d' = dom d → renamed m d d' → renamed m' d d'.
Proof.
  intros Hm Hdom Hr k. specialize (Hr k).
  destruct (d !! k) as [v|] eqn:E; simpl in *; [|done].
  assert (is_Some (d' !! k)) as [v' Hv'].
  { apply elem_of_dom. rewrite Hdom. apply elem_of_dom. eauto. }
  rewrite Hv' in Hr |- *. symmetry. eapply rename_mono; eauto.
Qed.

Lemma copied_stable (h0 h h' : heap) (m m' : memo) (l y : loc) :
  h' !! y = h !! y → m ⊆ m' → copied h0 h m l y → copied h0 h' m' l y.
Proof.
  intros Hy Hm (d & d' & H0 & H1 & Hdom & Hr).
  exists d, d'. split_and!; [done|congruence|done|by eapply renamed_mono].
Qed.

Lemma memo_ok_weaken (h0 hs h h' : heap) (m : memo) :
  dom h ⊆ dom h' → memo_ok h0 hs h m → memo_ok h0 hs h' m.
Proof.
  intros Hd Hok l y Hl. destruct (Hok l y Hl) as (? & ? & ?).
  split_and!; [done|set_solver|done].
Qed.

Lemma measure_mono (h0 : heap) (m m' : memo) (n : nat) :
  m ⊆ m' → (size (dom h0 ∖ dom m) ≤ n)%nat → (size (dom h0 ∖ dom m') ≤ n)%nat.
Proof.
  intros Hm Hn. etrans; [|exact Hn]. apply subseteq_size.
  apply subseteq_dom in Hm. intros l.
  rewrite !elem_of_difference. intros [? ?]. split; [done|]. intros ?. auto.
Qed.

Lemma size_elem_of_pos (X : gset loc) (l : loc) : l ∈ X → (1 ≤ size X)%nat.
Proof.
  intros Hl. rewrite <- (size_singleton (C:=gset loc) l).
  apply subseteq_size. by apply singleton_subseteq_l.
Qed.

Section DeepCopy.
Variables h0 hs : heap.
Hypothesis h0_closed : closed h0.
Hypothesis h0_hs : h0 ⊆ hs.

(** The loop that fills the new dictionary [y], given that the recursive
    calls behave. *)
Lemma copy_items_spec (rec : val → heap * memo → option (val * (heap * memo)))
    (n : nat) (y : loc) :
  (∀ x h m, hs ⊆ h → memo_ok h0 hs h m → val_in h0 x →
     (size (dom h0 ∖ dom m) ≤ n)%nat →
     ∃ res, rec x (h, m) = Some res ∧ copy_post h0 hs h m x res) →
  y ∉ dom hs →
  ∀ (items : list (string * val)) (h : heap) (m : memo) (dacc : dict),
    hs ⊆ h → memo_ok h0 hs h m → h !! y = Some dacc →
    Forall (λ kv, val_in h0 kv.2) items → NoDup items.*1 →
    (size (dom h0 ∖ dom m) ≤ n)%nat →
    ∃ h' m' d',
      copy_items rec y items (h, m) = Some (h', m') ∧
      delete y h ⊆ h' ∧ hs ⊆ h' ∧ m ⊆ m' ∧ memo_ok h0 hs h' m' ∧
      h' !! y = Some d' ∧
      (∀ k, d' !! k = match (list_to_map items : dict) !! k with
                      | Some v => rename m' v
                      | None => dacc !! k
                      end) ∧
      (∀ k v, (list_to_map items : dict) !! k = Some v → is_Some (rename m' v)) ∧
      (∀ l z, m' !! l = Some z → m !! l = None →
         (z ∉ dom h) ∧ copied h0 h' m' l z).
Proof.
  intros Hrec Hy items.
  induction items as [|[k v] items IH]; intros h m dacc Hhs Hok Hyd Hcl Hnd Hn.
  - exists h, m, dacc. simpl. split_and!; try done.
    + apply delete_subseteq.
    + intros l z Hl Hl'. congruence.
  - apply Forall_cons in Hcl as [Hv Hcl]. simpl in Hv.
    rewrite fmap_cons in Hnd. apply NoDup_cons in Hnd as [Hk Hnd]. simpl in Hk.
    destruct (Hrec v h m Hhs Hok Hv Hn) as ([v' [h1 m1]] & Hr & Hpost).
    destruct Hpost as (Hh1 & Hm1 & Hok1 & Hren & Hnew). simpl in *.
    assert (h1 !! y = Some dacc) as Hy1 by (eapply lookup_weaken; eauto).
    set (h2 := <[y := <[k := v']> dacc]> h1).
    assert (dom h1 ⊆ dom h2) as Hd12.
    { unfold h2. rewrite dom_insert_L. apply union_subseteq_r. }
    destruct (IH h2 m1 (<[k := v']> dacc)) as (h3 & m3 & d3 & Hc & Hdel & Hhs3 & Hm3 & Hok3 & Hy3 & Hd3 & Hsome & Hnew3).
    { apply map_subseteq_spec. intros l d Hl. unfold h2.
      rewrite lookup_insert_ne.
      - eapply lookup_weaken; [exact Hl|]. by etrans.
      - intros <-. apply Hy. apply elem_of_dom. eauto. }
    { eapply memo_ok_weaken; eauto. }
    { unfold h2. by rewrite lookup_insert_eq. }
    { done. }
    { done. }
    { eapply measure_mono; eauto. }
    exists h3, m3, d3. split_and!.
    + rewrite Hr. simpl. unfold setitem. rewrite Hy1. simpl. exact Hc.
    + etrans; [|exact Hdel]. unfold h2. rewrite delete_insert_eq.
      apply map_subseteq_spec. intros l d Hl.
      apply lookup_delete_Some in Hl as [Hne Hl].
      rewrite lookup_delete_ne; [|done]. eapply lookup_weaken; eauto.
    + done.
    + by etrans.
    + done.
    + done.
    + intros k0. rewrite Hd3. destruct (decide (k0 = k)) as [->|Hne].
      * rewrite lookup_insert_eq.
        rewrite (not_elem_of_list_to_map_1 (M:=gmap string) items k Hk).
        rewrite lookup_insert_eq. symmetry. eapply rename_mono; eauto.
      * rewrite !lookup_insert_ne by done. done.
    + intros k0 v0. destruct (decide (k0 = k)) as [->|Hne].
      * rewrite lookup_insert_eq. intros [= <-]. exists v'.
        eapply rename_mono; eauto.
      * rewrite lookup_insert_ne by done. apply Hsome.
    + intros l z Hl Hml.
      destruct (m1 !! l) as [z1|] eqn:E1.
      * assert (z1 = z) as -> by (eapply lookup_weaken in E1; eauto; congruence).
        destruct (Hnew l z E1 Hml) as [Hz Hcp]. split; [done|].
        assert (z ≠ y) as Hzy.
        { intros ->. apply Hz. apply elem_of_dom. eauto. }
        eapply copied_stable; [| exact Hm3 | exact Hcp].
        destruct Hcp as (d & d' & _ & Hz1 & _).
        rewrite Hz1. eapply lookup_weaken; [|exact Hdel].
        rewrite lookup_delete_ne by done. unfold h2.
        by rewrite lookup_insert_ne.
      * destruct (Hnew3 l z Hl E1) as [Hz Hcp]. split; [|done].
        intros Hzh. apply Hz. apply Hd12. eapply subseteq_dom; eauto.
Qed.

(** A call that returns at once changes nothing. *)
Ltac copy_post_same :=
  unfold copy_post; simpl; split_and!; try done; try congruence.

(** [deepcopy_rec] returns whenever the fuel covers the objects of the
    structure that are not in the memo yet, and leaves a finished copy. *)
Lemma deepcopy_rec_spec (fuel : nat) :
  ∀ (x : val) (h : heap) (m : memo),
    hs ⊆ h → memo_ok h0 hs h m → val_in h0 x →
    (size (dom h0 ∖ dom m) ≤ fuel)%nat →
    ∃ res, deepcopy_rec fuel x (h, m) = Some res ∧ copy_post h0 hs h m x res.
Proof.
  induction fuel as [|n IH]; intros x h m Hhs Hok Hx Hn.
  - destruct x as [|b|z|f|s|l]; try (eexists; split; [reflexivity|]; copy_post_same).
    simpl in Hx. simpl. destruct (m !! l) as [y|] eqn:E.
    + eexists; split; [reflexivity|]. copy_post_same. by rewrite E.
    + exfalso. assert (l ∈ dom h0 ∖ dom m) as Hl.
      { apply elem_of_difference. split; [done|]. by apply not_elem_of_dom. }
      apply size_elem_of_pos in Hl. lia.
  - destruct x as [|b|z|f|s|l]; try (eexists; split; [reflexivity|]; copy_post_same).
    simpl in Hx. simpl. destruct (m !! l) as [y|] eqn:E.
    + eexists; split; [reflexivity|]. copy_post_same. by rewrite E.
    + apply elem_of_dom in Hx as [d Hd].
      assert (h !! l = Some d) as Hhd.
      { eapply lookup_weaken; [exact Hd|]. by etrans. }
      rewrite Hhd. simpl.
      set (y := fresh (dom h)).
      assert (y ∉ dom h) as Hy by apply is_fresh.
      assert (y ∉ dom hs) as Hys.
      { intros ?. apply Hy. eapply subseteq_dom; eauto. }
      assert (h !! y = None) as Hyn by by apply not_elem_of_dom.
      destruct (copy_items_spec (deepcopy_rec n) n y IH Hys (map_to_list d)
                  (<[y := ∅]> h) (<[l := y]> m) ∅)
        as (h' & m' & d' & Hc & Hdel & Hhs' & Hm' & Hok' & Hy' & Hd' & Hsome & Hnew).
      { etrans; [exact Hhs|]. by apply insert_subseteq. }
      { intros l1 y1. rewrite lookup_insert. case_decide as Hl.
        - intros [= <-]. subst l1. split_and!.
          + apply elem_of_dom. eauto.
          + rewrite dom_insert_L. apply elem_of_union_l, elem_of_singleton. done.
          + done.
        - intros Hl1. destruct (Hok l1 y1 Hl1) as (? & ? & ?). split_and!; [done| |done].
          rewrite dom_insert_L. by apply elem_of_union_r. }
      { by rewrite lookup_insert_eq. }
      { apply Forall_forall. intros [k v] Hkv. simpl.
        apply elem_of_map_to_list in Hkv.
        exact (h0_closed l d Hd k v Hkv). }
      { apply NoDup_fst_map_to_list. }
      { assert (dom h0 ∖ dom m = {[l]} ∪ dom h0 ∖ dom (<[l := y]> m)) as Heq.
        { apply set_eq. intros l1. rewrite dom_insert_L.
          rewrite elem_of_union, !elem_of_difference, elem_of_union, !elem_of_singleton.
          split.
          - intros [? ?]. destruct (decide (l1 = l)); [by left|right].
            split; [done|]. intros [?|?]; done.
          - intros [->|[? Hnot]].
            + split; [apply elem_of_dom; eauto|by apply not_elem_of_dom].
            + split; [done|]. intros ?. apply Hnot. by right. }
        rewrite Heq, size_union, size_singleton in Hn; [lia|].
        intros l1. rewrite elem_of_singleton, elem_of_difference, dom_insert_L.
        intros -> [_ Hnot]. apply Hnot. apply elem_of_union_l, elem_of_singleton. done. }
      rewrite Hc. simpl. eexists; split; [reflexivity|].
      rewrite list_to_map_to_list in Hd', Hsome.
      assert (m' !! l = Some y) as Hly.
      { eapply lookup_weaken; [|exact Hm']. by rewrite lookup_insert_eq. }
      unfold copy_post. split_and!; simpl.
      * etrans; [|exact Hdel]. rewrite delete_insert_eq. by rewrite delete_id.
      * etrans; [|exact Hm']. by apply insert_subseteq.
      * done.
      * by rewrite Hly.
      * intros l1 y1 Hl1 Hml1. destruct (decide (l1 = l)) as [->|Hne].
        -- assert (y1 = y) as -> by congruence. split; [done|].
           exists d, d'. split_and!; try done.
           apply set_eq. intros k. rewrite !elem_of_dom, Hd'.
           destruct (d !! k) as [v|] eqn:Ek.
           ++ split; [eauto|]. intros _. by eapply Hsome.
           ++ by rewrite lookup_empty.
        -- destruct (Hnew l1 y1 Hl1) as [Hz Hcp].
           { by rewrite lookup_insert_ne. }
           split; [|done]. intros ?. apply Hz. rewrite dom_insert_L.
           by apply elem_of_union_r.
Qed.

End DeepCopy.

(** [copy.deepcopy(x)] returns on every closed structure, changes no object of
    the store, and every object it enters in its memo is a finished copy that
    did not exist before. *)
Lemma deepcopy_spec (h0 h : heap) (x : val) :
  closed h0 → h0 ⊆ h → val_in h0 x →
  ∃ x' h' m,
    deepcopy x h = Some (x', h') ∧ h ⊆ h' ∧ rename m x = Some x' ∧
    ∀ l y, m !! l = Some y → (y ∉ dom h) ∧ copied h0 h' m l y.
Proof.
  intros Hcl Hsub Hx.
  destruct (deepcopy_rec_spec h0 h Hcl Hsub (size h) x h ∅)
    as ([x' [h' m]] & Hrun & Hh & _ & _ & Hren & Hnew); simpl in *.
  - done.
  - intros l y. by rewrite lookup_empty.
  - done.
  - rewrite <- (size_dom (D:=gset loc) h). apply subseteq_size.
    apply subseteq_dom in Hsub. intros l.
    rewrite elem_of_difference. intros [? _]. by apply Hsub.
  - exists x', h', m. unfold deepcopy. rewrite Hrun. simpl.
    split_and!; try done. intros l y Hl. apply Hnew; [done|apply lookup_empty].
Qed.

Lemma observe_nil (h : heap) (v : val) : observe h v [] = view_of h v.
Proof. reflexivity. Qed.

Lemma observe_cons (h : heap) (l : loc) (k : string) (keys : list string) :
  observe h (VRef l) (k :: keys) = d ← h !! l; x ← d !! k; observe h x keys.
Proof.
  unfold observe. simpl. destruct (h !! l) as [d|]; simpl; [|done].
  by destruct (d !! k).
Qed.

Lemma observe_atom (h : heap) (v : val) (k : string) (keys : list string) :
  (∀ l, v ≠ VRef l) → observe h v (k :: keys) = None.
Proof. intros Hv. destruct v; try done. by destruct (Hv l). Qed.

(** A finished copy shows the same at every key path as its original. *)
Lemma copy_observe (h0 h' : heap) (m : memo) :
  (∀ l y, m !! l = Some y → copied h0 h' m l y) →
  ∀ (keys : list string) (x x' : val),
    rename m x = Some x' → observe h' x' keys = observe h0 x keys.
Proof.
  intros Hm keys. induction keys as [|k keys IH]; intros x x' Hren.
  - rewrite !observe_nil.
    destruct x as [|b|z|f|s|l]; simpl in Hren; try by (injection Hren as <-).
    destruct (m !! l) as [y|] eqn:E; simpl in Hren; [|done].
    injection Hren as <-. destruct (Hm l y E) as (d & d' & H0 & H1 & Hdom & _).
    simpl. rewrite H0, H1. simpl. by rewrite Hdom.
  - destruct x as [|b|z|f|s|l]; simpl in Hren; try by (injection Hren as <-).
    destruct (m !! l) as [y|] eqn:E; simpl in Hren; [|done].
    injection Hren as <-. destruct (Hm l y E) as (d & d' & H0 & H1 & Hdom & Hr).
    rewrite !observe_cons, H0, H1. simpl. specialize (Hr k).
    destruct (d !! k) as [v|] eqn:Ek; simpl in *.
    + assert (is_Some (d' !! k)) as [v' Hv'].
      { apply elem_of_dom. rewrite Hdom. apply elem_of_dom. eauto. }
      rewrite Hv' in Hr |- *. simpl. by apply IH.
    + by rewrite Hr.
Qed.

(** Whatever a finished copy leads to was allocated by the copy. *)
Lemma copy_reachable (h0 h h' : heap) (m : memo) :
  (∀ l y, m !! l = Some y → (y ∉ dom h) ∧ copied h0 h' m l y) →
  ∀ (keys : list string) (x x' : val) (l : loc),
    rename m x = Some x' → getpath h' x' keys = Some (VRef l) → l ∉ dom h.
Proof.
  intros Hm keys. induction keys as [|k keys IH]; intros x x' l' Hren Hp.
  - simpl in Hp. injection Hp as ->.
    destruct x as [|b|z|f|s|l]; simpl in Hren; try done.
    destruct (m !! l) as [y|] eqn:E; simpl in Hren; [|done].
    injection Hren as <-. by destruct (Hm l y E).
  - destruct x as [|b|z|f|s|l]; simpl in Hren;
      try (injection Hren as <-; done).
    destruct (m !! l) as [y|] eqn:E; simpl in Hren; [|done].
    injection Hren as <-. destruct (Hm l y E) as (_ & d & d' & H0 & H1 & Hdom & Hr).
    simpl in Hp. rewrite H1 in Hp. simpl in Hp. specialize (Hr k).
    destruct (d' !! k) as [v'|] eqn:Ek; simpl in Hp; [|done].
    destruct (d !! k) as [v|]; simpl in Hr; [|done].
    by eapply IH.
Qed.

(** A closed part of the store reads the same in any larger store. *)
Lemma getpath_weaken (h h' : heap) :
  closed h → h ⊆ h' →
  ∀ (keys : list string) (v : val),
    val_in h v → getpath h' v keys = getpath h v keys.
Proof.
  intros Hcl Hsub keys. induction keys as [|k keys IH]; intros v Hv; [done|].
  destruct v as [|b|z|f|s|l]; try done. simpl in Hv.
  apply elem_of_dom in Hv as [d Hd]. simpl.
  rewrite Hd, (lookup_weaken _ _ _ _ Hd Hsub). simpl.
  destruct (d !! k) as [x|] eqn:Ek; simpl; [|done].
  apply IH. exact (Hcl l d Hd k x Ek).
Qed.

Lemma getpath_val_in (h : heap) :
  closed h →
  ∀ (keys : list string) (v x : val),
    val_in h v → getpath h v keys = Some x → val_in h x.
Proof.
  intros Hcl keys. induction keys as [|k keys IH]; intros v x Hv Hp.
  - simpl in Hp. by injection Hp as <-.
  - destruct v as [|b|z|f|s|l]; try done. simpl in Hp.
    destruct (h !! l) as [d|] eqn:Hd; simpl in Hp; [|done].
    destruct (d !! k) as [w|] eqn:Ek; simpl in Hp; [|done].
    eapply IH; [|exact Hp]. exact (Hcl l d Hd k w Ek).
Qed.

Lemma observe_weaken (h h' : heap) (keys : list string) (v : val) :
  closed h → h ⊆ h' → val_in h v → observe h' v keys = observe h v keys.
Proof.
  intros Hcl Hsub Hv. unfold observe. rewrite (getpath_weaken h h') by done.
  destruct (getpath h v keys) as [x|] eqn:Hp; simpl; [|done].
  apply (getpath_val_in h Hcl) in Hp; [|done].
  destruct x as [|b|z|f|s|l]; try done. simpl in *.
  apply elem_of_dom in Hp as [d Hd].
  by rewrite Hd, (lookup_weaken _ _ _ _ Hd Hsub).
Qed.

(** ** The preset table *)

Lemma closed_alloc (h : heap) (d : dict) (l : loc) :
  closed h → map_Forall (λ _ v, val_in h v) d → closed (<[l := d]> h).
Proof.
  intros Hcl Hd l1 d1 Hl1 k v Hk.
  assert (val_in h v) as Hv.
  { apply lookup_insert_Some in Hl1 as [[_ <-]|[_ Hl1]].
    - exact (Hd k v Hk).
    - exact (Hcl l1 d1 Hl1 k v Hk). }
  destruct v; try done. simpl in *. rewrite dom_insert_L.
  by apply elem_of_union_r.
Qed.

Lemma dict_unpack_lookup (a b : dict) (k : string) :
  dict_unpack a b !! k =
    match b !! k with
    | Some v => Some v
    | None => a !! k
    end.
Proof.
  unfold dict_unpack. rewrite lookup_union.
  destruct (b !! k), (a !! k); done.
Qed.

Lemma dict_unpack_dom (a b : dict) : dom (dict_unpack a b) = dom a ∪ dom b.
Proof.
  unfold dict_unpack. rewrite dom_union_L. apply set_eq. intros k.
  rewrite !elem_of_union. tauto.
Qed.

(** One call of [presets], in a store [h2] that holds the registry [h]
    untouched and possibly more: it returns a new dictionary whose keys are
    those of the two tables, which leads to new objects only, and which shows
    under each key what the merged entry shows in the registry. *)
Lemma presets_spec (bp cp : loc) (h h2 : heap) (a b : dict) :
  closed h → h !! bp = Some a → h !! cp = Some b → h ⊆ h2 →
  ∃ r h3 d,
    presets bp cp h2 = Some (VRef r, h3) ∧ h2 ⊆ h3 ∧
    (∀ l, reachable h3 (VRef r) l → l ∉ dom h2) ∧
    h3 !! r = Some d ∧ dom d = dom a ∪ dom b ∧
    ∀ k keys, observe h3 (VRef r) (k :: keys) =
                v ← dict_unpack a b !! k; observe h v keys.
Proof.
  intros Hcl Ha Hb Hsub.
  set (mg := fresh (dom h2)).
  assert (mg ∉ dom h2) as Hmg by apply is_fresh.
  assert (mg ∉ dom h) as Hmg0.
  { intros ?. apply Hmg. eapply subseteq_dom; eauto. }
  set (h0 := <[mg := dict_unpack a b]> h).
  set (h1 := <[mg := dict_unpack a b]> h2).
  assert (map_Forall (λ _ v, val_in h v) (dict_unpack a b)) as Hvals.
  { intros k v. rewrite dict_unpack_lookup.
    destruct (b !! k) as [vb|] eqn:Ek.
    - intros [= <-]. exact (Hcl cp b Hb k vb Ek).
    - intros Hk. exact (Hcl bp a Ha k v Hk). }
  assert (closed h0) as Hcl0 by by apply closed_alloc.
  assert (h0 ⊆ h1) as H01 by by apply insert_mono.
  assert (h ⊆ h0) as Hh0.
  { apply insert_subseteq. by apply not_elem_of_dom. }
  assert (h2 ⊆ h1) as H21.
  { apply insert_subseteq. by apply not_elem_of_dom. }
  destruct (deepcopy_spec h0 h1 (VRef mg) Hcl0 H01)
    as (x' & h3 & m & Hrun & H13 & Hren & Hnew).
  { simpl. unfold h0. rewrite dom_insert_L.
    apply elem_of_union_l, elem_of_singleton. done. }
  simpl in Hren. destruct (m !! mg) as [r|] eqn:Er; simpl in Hren; [|done].
  injection Hren as <-.
  destruct (Hnew mg r Er) as (Hr1 & d0 & d & Hd0 & Hd & Hdom & Hrd).
  assert (d0 = dict_unpack a b) as ->.
  { unfold h0 in Hd0. rewrite lookup_insert_eq in Hd0. congruence. }
  exists r, h3, d. split_and!.
  - unfold presets. rewrite (lookup_weaken _ _ _ _ Ha Hsub).
    simpl. rewrite (lookup_weaken _ _ _ _ Hb Hsub). simpl. exact Hrun.
  - by etrans.
  - intros l [keys Hp] Hl.
    eapply (copy_reachable h0 h1 h3 m Hnew keys (VRef mg) (VRef r) l).
    + simpl. by rewrite Er.
    + done.
    + eapply subseteq_dom; eauto.
  - done.
  - by rewrite Hdom, dict_unpack_dom.
  - intros k keys.
    rewrite (copy_observe h0 h3 m (λ l y Hl, proj2 (Hnew l y Hl))
               (k :: keys) (VRef mg) (VRef r)) by (simpl; by rewrite Er).
    rewrite observe_cons, Hd0. simpl.
    destruct (dict_unpack a b !! k) as [v|] eqn:Ek; simpl; [|done].
    apply observe_weaken; [done|done|]. exact (Hvals k v Ek).
Qed.



(** ** The constructor *)

Section Construction.
Context {D : Delegates}.

Lemma is_not_None_true (v : val) : is_not_None v = true ↔ v ≠ VNone.
Proof. destruct v; simpl; split; done. Qed.

(** Once the backbone has given its pooled output, the constructor returns
    exactly when every delegated call goes through, and raises only what a
    delegated call raised. *)
Lemma init_cases (bb : Backbone) (nc dr pp : val) (kw : dict)
    (outs : gmap string tensor) (pooled : tensor) :
  call bb (input bb) = Ok outs → outs !! "pooled_output" = Some pooled →
  match __init__ bb nc dr pp kw with
  | Ok m => accepted bb nc dr pp kw pooled ∧ m = constructed bb nc dr pp kw pooled
  | Raise e => delegate_raises bb nc dr pp kw pooled e
  end.
Proof.
  intros Hcall Hpooled. unfold __init__, accepted, delegate_raises, compile.
  rewrite Hcall. simpl. unfold getitem. rewrite Hpooled. simpl.
  destruct (Dropout_init dr) as [[]|e1]; simpl; [|by left].
  destruct (layer_call (Dropout dr) pooled) as [[]|e2]; simpl; [|by right; left].
  destruct (Dense_init nc bert_kernel_initializer "logits") as [[]|e3]; simpl;
    [|by right; right; left].
  destruct (layer_call (Dense nc bert_kernel_initializer "logits")
              (Apply (Dropout dr) pooled)) as [[]|e4]; simpl;
    [|by right; right; right; left].
  destruct (Task_init (input bb) _ (is_not_None pp) kw) as [[]|e5];
    simpl; [|by right; right; right; right; left].
  destruct (Model_compile _ _) as [[]|e6]; simpl.
  - by split_and!.
  - by right; right; right; right; right.
Qed.

Lemma init_Ok_inv (bb : Backbone) (nc dr pp : val) (kw : dict)
    (m : BertClassifier) :
  __init__ bb nc dr pp kw = Ok m →
  ∃ outs pooled,
    call bb (input bb) = Ok outs ∧ outs !! "pooled_output" = Some pooled ∧
    accepted bb nc dr pp kw pooled ∧ m = constructed bb nc dr pp kw pooled.
Proof.
  intros Hm.
  destruct (call bb (input bb)) as [outs|e] eqn:Hcall.
  - destruct (outs !! "pooled_output") as [pooled|] eqn:Hpooled.
    + pose proof (init_cases bb nc dr pp kw outs pooled Hcall Hpooled) as Hc.
      rewrite Hm in Hc. exists outs, pooled. by destruct Hc.
    + unfold __init__ in Hm. rewrite Hcall in Hm. simpl in Hm.
      unfold getitem in Hm. by rewrite Hpooled in Hm.
  - unfold __init__ in Hm. by rewrite Hcall in Hm.
Qed.

Lemma init_Ok_intro (bb : Backbone) (nc dr pp : val) (kw : dict)
    (outs : gmap string tensor) (pooled : tensor) :
  call bb (input bb) = Ok outs → outs !! "pooled_output" = Some pooled →
  accepted bb nc dr pp kw pooled →
  __init__ bb nc dr pp kw = Ok (constructed bb nc dr pp kw pooled).
Proof.
  intros Hcall Hpooled Hacc.
  pose proof (init_cases bb nc dr pp kw outs pooled Hcall Hpooled) as Hc.
  destruct (__init__ bb nc dr pp kw) as [m|e].
  - destruct Hc as [_ ->]. done.
  - exfalso. destruct Hacc as (H1 & H2 & H3 & H4 & H5 & H6).
    destruct Hc as [Hc|[Hc|[Hc|[Hc|[Hc|Hc]]]]]; congruence.
Qed.

End Construction.

(** ** The forward graph *)

Section Claims.
Context {D : Delegates}.

(** C1. For every backbone, [num_classes], [dropout] and preprocessor, a
    construction that returns has built this forward graph: the backbone,
    called on its own input, gives the pooled output; [Dropout(dropout)] is
    applied to it; the [Dense] layer named "logits", of [num_classes] units,
    with the truncated normal initializer of standard deviation 0.02, is
    applied to the result. The dropout is the argument of the dense
    projection, and both layer constructors were called with these
    arguments. *)
Theorem head_is_dropout_then_logits (bb : Backbone) (nc dr pp : val)
    (kw : dict) (m : BertClassifier) :
  __init__ bb nc dr pp kw = Ok m →
  ∃ outs pooled,
    call bb (input bb) = Ok outs ∧
    outs !! "pooled_output" = Some pooled ∧
    Dropout_init dr = Ok () ∧
    Dense_init nc (TruncatedNormal 0.02) "logits" = Ok () ∧
    inputs m = input bb ∧
    outputs m =
      Apply (Dense nc (TruncatedNormal 0.02) "logits")
            (Apply (Dropout dr) pooled).
Proof.
  intros Hm. apply init_Ok_inv in Hm as (outs & pooled & Hcall & Hp & Hacc & ->).
  destruct Hacc as (H1 & _ & H3 & _).
  exists outs, pooled. by split_and!.
Qed.

Lemma last_bind_batch (b : Z) (s : shape) (x : option Z) :
  last s = Some x → is_Some x → last (bind_batch b s) = Some x.
Proof.
  destruct s as [|[z|] [|y s']]; simpl; try done.
  intros [= <-] [? ?]. done.
Qed.

(** C2. Whenever the construction returns for an integer [num_classes] on a
    backbone whose pooled output has a known last dimension, the output of
    the model on a batch of any size [b] has a shape, and the last dimension
    of that shape is [num_classes]. *)
Theorem output_last_dimension (bb : Backbone) (n : Z) (dr pp : val)
    (kw : dict) (m : BertClassifier)
    (outs : gmap string tensor) (pooled : tensor) (s : shape) (hidden : Z) :
  __init__ bb (VInt n) dr pp kw = Ok m →
  call bb (input bb) = Ok outs →
  outs !! "pooled_output" = Some pooled →
  shape_of pooled = Some s →
  last s = Some (Some hidden) →
  ∀ b : Z,
    shape_on_batch b (outputs m) = Some (bind_batch b (removelast s ++ [Some n])) ∧
    last (bind_batch b (removelast s ++ [Some n])) = Some (Some n).
Proof.
  intros Hm Hcall Hp Hs Hlast b.
  apply init_Ok_inv in Hm as (outs' & pooled' & Hcall' & Hp' & _ & ->).
  assert (outs' = outs) as -> by congruence.
  assert (pooled' = pooled) as -> by congruence.
  split.
  - unfold shape_on_batch. simpl. rewrite Hs. simpl. by rewrite Hlast.
  - apply last_bind_batch; [apply last_snoc|by eexists].
Qed.

(** ** Configuration *)

Lemma get_config_num_classes (self : BertClassifier) :
  get_config self !! "num_classes" = Some (num_classes self).
Proof. unfold get_config. by rewrite lookup_insert_ne, lookup_insert_eq. Qed.

Lemma get_config_dropout (self : BertClassifier) :
  get_config self !! "dropout" = Some (dropout self).
Proof. unfold get_config. by rewrite lookup_insert_eq. Qed.

Lemma get_config_base (self : BertClassifier) (k : string) :
  k ≠ "num_classes" → k ≠ "dropout" →
  get_config self !! k = Task_get_config self !! k.
Proof. intros ? ?. unfold get_config. by rewrite !lookup_insert_ne. Qed.

(** Reconstruction from the configuration is the constructor at the
    original's hyperparameters. *)
Lemma from_config_get_config (self : BertClassifier) :
  from_config (backbone self) (preprocessor self) (get_config self) =
  __init__ (backbone self) (num_classes self) (dropout self)
    (preprocessor self)
    (delete "backbone" (delete "preprocessor"
      (delete "num_classes" (delete "dropout" (get_config self))))).
Proof.
  unfold from_config. by rewrite get_config_num_classes, get_config_dropout.
Qed.

(** C3. [get_config] returns the parent's configuration extended with
    [num_classes] and [dropout], holding the instance's values; and a
    classifier reconstructed from it on the same backbone and preprocessor has
    the [num_classes] and the [dropout] of the original. *)
Theorem get_config_roundtrip (self m' : BertClassifier) :
  from_config (backbone self) (preprocessor self) (get_config self) = Ok m' →
  get_config self !! "num_classes" = Some (num_classes self) ∧
  get_config self !! "dropout" = Some (dropout self) ∧
  (∀ k, k ≠ "num_classes" → k ≠ "dropout" →
        get_config self !! k = Task_get_config self !! k) ∧
  num_classes m' = num_classes self ∧
  dropout m' = dropout self.
Proof.
  rewrite from_config_get_config. intros Hm.
  apply init_Ok_inv in Hm as (outs & pooled & _ & _ & _ & ->).
  split_and!; try done.
  - apply get_config_num_classes.
  - apply get_config_dropout.
  - apply get_config_base.
Qed.

(** ** Default compilation *)

(** C4. A construction that returns has compiled the model: the loss is the
    sparse categorical cross-entropy from logits, the optimizer Adam with
    learning rate 5e-5, the metric the sparse categorical accuracy. The
    constructor runs no training step, and a later [compile] that the
    framework accepts replaces this state by its own arguments. *)
Theorem default_compilation (bb : Backbone) (nc dr pp : val) (kw : dict)
    (m : BertClassifier) :
  __init__ bb nc dr pp kw = Ok m →
  (∃ jit, compiled m =
     Some {| c_optimizer := Adam 5e-5;
             c_loss := Some (SparseCategoricalCrossentropy true);
             c_metrics := [SparseCategoricalAccuracy];
             c_jit_compile := Some jit |}) ∧
  ∀ args, Model_compile m args = Ok () →
    ∃ m', compile m args = Ok m' ∧ compiled m' = Some args.
Proof.
  intros Hm. apply init_Ok_inv in Hm as (outs & pooled & _ & _ & _ & ->).
  split.
  - by eexists.
  - intros args Hargs. unfold compile. rewrite Hargs. simpl. by eexists.
Qed.

(** ** Validation *)

(** C7. The constructor checks neither [num_classes] nor [dropout]. Given the
    backbone's pooled output, for all values of the two, whatever their type
    and range, it returns exactly when the calls it delegates to go through,
    storing the two values as they came; and an exception it raises is one
    that a delegated call raised. *)
Theorem no_own_validation (bb : Backbone) (nc dr pp : val) (kw : dict)
    (outs : gmap string tensor) (pooled : tensor) :
  call bb (input bb) = Ok outs →
  outs !! "pooled_output" = Some pooled →
  match __init__ bb nc dr pp kw with
  | Ok m => accepted bb nc dr pp kw pooled ∧ num_classes m = nc ∧ dropout m = dr
  | Raise e => delegate_raises bb nc dr pp kw pooled e
  end ∧
  (accepted bb nc dr pp kw pooled → ∃ m, __init__ bb nc dr pp kw = Ok m).
Proof.
  intros Hcall Hp. split.
  - pose proof (init_cases bb nc dr pp kw outs pooled Hcall Hp) as Hc.
    destruct (__init__ bb nc dr pp kw) as [m|e]; [|done].
    destruct Hc as [Hacc ->]. done.
  - intros Hacc. eexists. by eapply init_Ok_intro.
Qed.

(** ** The preprocessing flag *)

(** C9. The flag the parent constructor receives is [preprocessor is not
    None]: it is on exactly when the preprocessor is not [None], whatever the
    truth value of the preprocessor. *)
Theorem preprocessing_flag (bb : Backbone) (nc dr pp : val) (kw : dict)
    (m : BertClassifier) :
  __init__ bb nc dr pp kw = Ok m →
  Task_init (inputs m) (outputs m) (is_not_None pp) kw = Ok () ∧
  include_preprocessing m = is_not_None pp ∧
  (include_preprocessing m = true ↔ pp ≠ VNone) ∧
  (∀ h, truthy h pp = false → pp ≠ VNone → include_preprocessing m = true).
Proof.
  intros Hm. apply init_Ok_inv in Hm as (outs & pooled & _ & _ & Hacc & ->).
  destruct Hacc as (_ & _ & _ & _ & H5 & _). simpl.
  split_and!; [done|done|apply is_not_None_true|].
  intros _ _ Hpp. by apply is_not_None_true.
Qed.

End Claims.

(** ** The preset table, as the class exposes it *)


(** C10. For a key that both tables have, the entry of the dictionary
    [presets] returns is a copy of the classifier table's entry: it shows at
    every key path what the classifier table's entry shows. *)
Theorem presets_classifier_entry_wins (bp cp : loc) (h : heap) (a b : dict)
    (k : string) (va vb : val) :
  closed h → h !! bp = Some a → h !! cp = Some b →
  a !! k = Some va → b !! k = Some vb →
  ∃ r h1 d v,
    presets bp cp h = Some (VRef r, h1) ∧
    h1 !! r = Some d ∧ d !! k = Some v ∧
    ∀ keys, observe h1 v keys = observe h vb keys.
Proof.
  intros Hcl Ha Hb Hka Hkb.
  destruct (presets_spec bp cp h h a b Hcl Ha Hb (reflexivity h))
    as (r & h1 & d & Hrun & Hh1 & Hfresh & Hd & Hdom & Hobs).
  assert (is_Some (d !! k)) as [v Hv].
  { apply elem_of_dom. rewrite Hdom. apply elem_of_union_r, elem_of_dom. eauto. }
  exists r, h1, d, v. split_and!; try done.
  intros keys. specialize (Hobs k keys).
  rewrite observe_cons, Hd in Hobs. simpl in Hobs. rewrite Hv in Hobs.
  simpl in Hobs. rewrite Hobs, dict_unpack_lookup, Hkb. done.
Qed.

(** C6. Reconstruction by a name that neither table has fails with the key
    error of the lookup in the merged table; no classifier is built. *)
Theorem from_preset_unknown_name {D : Delegates}
    (backbone_of : heap → val → result Backbone)
    (bp cp : loc) (h : heap) (a b : dict)
    (preset : string) (nc pp : val) (kw : dict) :
  closed h → h !! bp = Some a → h !! cp = Some b →
  preset ∉ dom a ∪ dom b →
  ∃ h', from_preset backbone_of bp cp preset nc pp kw h =
          Some (Raise (KeyError preset), h').
Proof.
  intros Hcl Ha Hb Hnot.
  destruct (presets_spec bp cp h h a b Hcl Ha Hb (reflexivity h))
    as (r & h1 & d & Hrun & Hh1 & Hfresh & Hd & Hdom & Hobs).
  exists h1. unfold from_preset. rewrite Hrun. simpl. rewrite Hd. simpl.
  unfold getitem. rewrite <- Hdom in Hnot. apply not_elem_of_dom in Hnot.
  by rewrite Hnot.
Qed.

(** ** The theorems at work on concrete inputs *)

Lemma head_is_dropout_then_logits_witness :
  __init__ (D:=checking) small_backbone (VInt 4) (VFloat 0.1) VNone ∅
    = Ok small_classifier ∧
  ∃ outs pooled,
    call small_backbone (input small_backbone) = Ok outs ∧
    outs !! "pooled_output" = Some pooled ∧
    Dropout_init (Delegates:=checking) (VFloat 0.1) = Ok () ∧
    Dense_init (Delegates:=checking) (VInt 4) (TruncatedNormal 0.02) "logits" = Ok () ∧
    inputs small_classifier = input small_backbone ∧
    outputs small_classifier =
      Apply (Dense (VInt 4) (TruncatedNormal 0.02) "logits")
            (Apply (Dropout (VFloat 0.1)) pooled).
Proof.
  split; [reflexivity|].
  apply (head_is_dropout_then_logits (D:=checking) small_backbone
           (VInt 4) (VFloat 0.1) VNone ∅ small_classifier).
  reflexivity.
Defined.

Lemma output_last_dimension_witness :
  __init__ (D:=checking) small_backbone (VInt 4) (VFloat 0.1) VNone ∅
    = Ok small_classifier ∧
  ∀ b : Z,
    shape_on_batch b (outputs small_classifier)
      = Some (bind_batch b (removelast [None; Some 64] ++ [Some 4])) ∧
    last (bind_batch b (removelast [None; Some 64] ++ [Some 4])) = Some (Some 4).
Proof.
  split; [reflexivity|].
  apply (output_last_dimension (D:=checking) small_backbone 4 (VFloat 0.1)
           VNone ∅ small_classifier small_outputs small_pooled
           [None; Some 64] 64); reflexivity.
Defined.

Lemma get_config_roundtrip_witness :
  from_config (D:=checking) (backbone small_classifier)
    (preprocessor small_classifier) (get_config (D:=checking) small_classifier)
    = Ok small_classifier_again ∧
  num_classes small_classifier_again = VInt 4 ∧
  dropout small_classifier_again = VFloat 0.1.
Proof.
  assert (from_config (D:=checking) (backbone small_classifier)
            (preprocessor small_classifier)
            (get_config (D:=checking) small_classifier)
          = Ok small_classifier_again) as H by (vm_compute; reflexivity).
  split; [exact H|].
  destruct (get_config_roundtrip (D:=checking) small_classifier
              small_classifier_again H) as (_ & _ & _ & Hn & Hd).
  split; [exact Hn|exact Hd].
Defined.

Lemma default_compilation_witness :
  __init__ (D:=checking) small_backbone (VInt 4) (VFloat 0.1) VNone ∅
    = Ok small_classifier ∧
  (∃ jit, compiled small_classifier =
     Some {| c_optimizer := Adam 5e-5;
             c_loss := Some (SparseCategoricalCrossentropy true);
             c_metrics := [SparseCategoricalAccuracy];
             c_jit_compile := Some jit |}) ∧
  ∀ args, Model_compile (Delegates:=checking) small_classifier args = Ok () →
    ∃ m', compile (D:=checking) small_classifier args = Ok m' ∧
          compiled m' = Some args.
Proof.
  split; [reflexivity|].
  apply (default_compilation (D:=checking) small_backbone
           (VInt 4) (VFloat 0.1) VNone ∅ small_classifier).
  reflexivity.
Defined.

Lemma no_own_validation_witness :
  __init__ (D:=permissive) small_backbone (VInt 0) (VFloat 1.5) (VStr "") ∅
    = Ok odd_classifier ∧
  num_classes odd_classifier = VInt 0 ∧
  dropout odd_classifier = VFloat 1.5.
Proof.
  pose proof (no_own_validation (D:=permissive) small_backbone
                (VInt 0) (VFloat 1.5) (VStr "") ∅ small_outputs small_pooled
                eq_refl eq_refl) as [H _].
  assert (__init__ (D:=permissive) small_backbone (VInt 0) (VFloat 1.5)
            (VStr "") ∅ = Ok odd_classifier) as E by reflexivity.
  rewrite E in H. destruct H as (_ & Hn & Hd).
  split; [exact E|]. split; [exact Hn|exact Hd].
Defined.

Lemma preprocessing_flag_witness :
  __init__ (D:=permissive) small_backbone (VInt 0) (VFloat 1.5) (VStr "") ∅
    = Ok odd_classifier ∧
  truthy ∅ (VStr "") = false ∧
  include_preprocessing odd_classifier = true.
Proof.
  assert (__init__ (D:=permissive) small_backbone (VInt 0) (VFloat 1.5)
            (VStr "") ∅ = Ok odd_classifier) as E by reflexivity.
  split; [exact E|]. split; [reflexivity|].
  destruct (preprocessing_flag (D:=permissive) small_backbone (VInt 0)
              (VFloat 1.5) (VStr "") ∅ odd_classifier E) as (_ & _ & _ & H).
  apply (H ∅); [reflexivity|discriminate].
Defined.

Lemma registry_closed : closed registry.
Proof. apply (bool_decide_unpack (closed registry)). vm_compute. exact I. Defined.


Lemma presets_classifier_entry_wins_witness :
  ∃ r h1 d v,
    presets 1%positive 2%positive registry = Some (VRef r, h1) ∧
    h1 !! r = Some d ∧ d !! "bert_tiny" = Some v ∧
    ∀ keys, observe h1 v keys = observe registry (VRef 5%positive) keys.
Proof.
  apply (presets_classifier_entry_wins 1%positive 2%positive registry
           registry_backbone_presets registry_classifier_presets
           "bert_tiny" (VRef 3%positive) (VRef 5%positive)).
  - exact registry_closed.
  - reflexivity.
  - reflexivity.
  - reflexivity.
  - reflexivity.
Defined.

Lemma from_preset_unknown_name_witness :
  ∃ h', from_preset (D:=permissive) (λ _ _, Ok small_backbone)
          1%positive 2%positive "bert_large" (VInt 4) VNone ∅ registry
        = Some (Raise (KeyError "bert_large"), h').
Proof.
  apply (from_preset_unknown_name (D:=permissive) (λ _ _, Ok small_backbone)
           1%positive 2%positive registry
           registry_backbone_presets registry_classifier_presets
           "bert_large" (VInt 4) VNone ∅).
  - exact registry_closed.
  - reflexivity.
  - reflexivity.
  - apply (bool_decide_unpack (_ ∉ _)). vm_compute. exact I.
Defined.

(** ** Runs *)

(** The strict framework rejects a zero class count, and the exception is the
    [Dense] constructor's. *)
Example zero_classes_rejected_by_Dense :
  __init__ (D:=checking) small_backbone (VInt 0) (VFloat 0.1) VNone ∅
    = Raise (ValueError "Received an invalid value for `units`") ∧
  Dense_init (Delegates:=checking) (VInt 0) bert_kernel_initializer "logits"
    = Raise (ValueError "Received an invalid value for `units`").
Proof. split; reflexivity. Qed.

(** A backbone without a pooled output: the subscript raises. *)
Example no_pooled_output :
  __init__ (D:=permissive)
    {| input := ∅; call := λ _, Ok {[ "sequence_output" := small_pooled ]} |}
    (VInt 2) (VFloat 0.1) VNone ∅
  = Raise (KeyError "pooled_output").
Proof. reflexivity. Qed.

(** The test's [compile(jit_compile=False)] after construction: the default
    loss, optimizer and metric are gone. *)
Example recompile_overrides :
  compile (D:=checking) small_classifier
    {| c_optimizer := c_optimizer compile_defaults;
       c_loss := c_loss compile_defaults;
       c_metrics := c_metrics compile_defaults;
       c_jit_compile := Some false |}
  = Ok (set_compiled small_classifier
          {| c_optimizer := OptimizerByName "rmsprop";
             c_loss := None;
             c_metrics := [];
             c_jit_compile := Some false |}).
Proof. reflexivity. Qed.

(** The shape of the test: a batch of four examples, four classes. *)
Example small_classifier_shape :
  shape_on_batch 4 (outputs small_classifier) = Some [Some 4; Some 4].
Proof. reflexivity. Qed.

(** On the example registry the merged table has three names, and
    [bert_tiny], which both tables have, shows the classifier's entry. *)
Example presets_run :
  match presets 1%positive 2%positive registry with
  | Some (v, h1) =>
      (observe h1 v ["bert_tiny"; "description"],
       observe h1 v ["bert_base"; "description"],
       observe h1 v ["bert_tiny_sst2"; "config"; "num_layers"],
       observe h1 v ["bert_large"])
  | None => (None, None, None, None)
  end
  = (Some (Atom (VStr "tiny, sst2")), Some (Atom (VStr "base")),
     Some (Atom (VInt 2)), None).
Proof. vm_compute. reflexivity. Qed.

(** Changing the returned table and a dictionary nested in it (the copy of the
    shared [config] is at location 11) leaves the registry's [config] and the
    next call's result as they were. *)
Example presets_after_mutation :
  match presets 1%positive 2%positive registry with
  | Some (v, h1) =>
      let h2 := mutate_all [SetItem 8%positive "bert_tiny" (VInt 0);
                            DelItem 11%positive "num_layers"] h1 in
      (observe h2 v ["bert_tiny"],
       observe h2 v ["bert_tiny_sst2"; "config"; "num_layers"],
       observe h2 (VRef 1%positive) ["bert_tiny"; "config"; "num_layers"],
       match presets 1%positive 2%positive h2 with
       | Some (v', h3) =>
           (observe h3 v' ["bert_tiny"; "description"],
            observe h3 v' ["bert_tiny_sst2"; "config"; "num_layers"])
       | None => (None, None)
       end)
  | None => (None, None, None, (None, None))
  end
  = (Some (Atom (VInt 0)), None, Some (Atom (VInt 2)),
     (Some (Atom (VStr "tiny, sst2")), Some (Atom (VInt 2)))).
Proof. vm_compute. reflexivity. Qed.

(** Without the deep copy the merged dictionary would share its entries with
    the registry: a change through it reaches the registry's [config]. *)
Example shallow_merge_aliases :
  let '(merged, h1) :=
    alloc (dict_unpack registry_backbone_presets registry_classifier_presets)
          registry in
  match getpath h1 (VRef merged) ["bert_tiny"; "config"] with
  | Some (VRef l) =>
      observe (mutate h1 (DelItem l "num_layers")) (VRef 1%positive)
              ["bert_tiny"; "config"; "num_layers"]
  | _ => Some (Atom VNone)
  end = None.
Proof. vm_compute. reflexivity. Qed.

(** A dictionary that contains itself is copied to one that contains
    itself. *)
Example deepcopy_cycle :
  match deepcopy (VRef 1%positive) {[ 1%positive := {[ "self" := VRef 1%positive ]} ]} with
  | Some (v, h1) => (v, getpath h1 v ["self"; "self"; "self"])
  | None => (VNone, None)
  end = (VRef 2%positive, Some (VRef 2%positive)).
Proof. vm_compute. reflexivity. Qed.

(** * Further properties of the module *)

(** ** Where a copy's paths lead *)

(** A path of the original is a path of the finished copy, and ends in the
    copy of what the original's path ends in. *)
Lemma copy_getpath (h0 h' : heap) (m : memo) :
  (∀ l y, m !! l = Some y → copied h0 h' m l y) →
  ∀ (keys : list string) (x x' v : val),
    rename m x = Some x' → getpath h0 x keys = Some v →
    ∃ v', getpath h' x' keys = Some v' ∧ rename m v = Some v'.
Proof.
  intros Hm keys. induction keys as [|k keys IH]; intros x x' v Hren Hp.
  - simpl in Hp. injection Hp as <-. by exists x'.
  - destruct x as [|b|z|f|s|l]; try done. simpl in Hren, Hp.
    destruct (m !! l) as [y|] eqn:E; simpl in Hren; [|done].
    injection Hren as <-. destruct (Hm l y E) as (d & d' & H0 & H1 & Hdom & Hr).
    rewrite H0 in Hp. simpl in Hp.
    destruct (d !! k) as [w|] eqn:Ek; simpl in Hp; [|done].
    assert (is_Some (d' !! k)) as [w' Hw'].
    { apply elem_of_dom. rewrite Hdom. apply elem_of_dom. eauto. }
    pose proof (Hr k) as Hk. rewrite Ek, Hw' in Hk. simpl in Hk.
    destruct (IH w w' v (eq_sym Hk) Hp) as (v' & Hp' & Hv').
    exists v'. split; [|done]. simpl. rewrite H1. simpl. by rewrite Hw'.
Qed.

(** Every object a finished copy leads to is the copy of some object. *)
Lemma copy_range (h0 h' : heap) (m : memo) :
  (∀ l y, m !! l = Some y → copied h0 h' m l y) →
  ∀ (keys : list string) (x x' : val) (l : loc),
    rename m x = Some x' → getpath h' x' keys = Some (VRef l) →
    ∃ l0, m !! l0 = Some l.
Proof.
  intros Hm keys. induction keys as [|k keys IH]; intros x x' l' Hren Hp.
  - simpl in Hp. injection Hp as ->.
    destruct x as [|b|z|f|s|l]; simpl in Hren; try done.
    destruct (m !! l) as [y|] eqn:E; simpl in Hren; [|done].
    injection Hren as <-. by exists l.
  - destruct x as [|b|z|f|s|l]; simpl in Hren;
      try (injection Hren as <-; done).
    destruct (m !! l) as [y|] eqn:E; simpl in Hren; [|done].
    injection Hren as <-. destruct (Hm l y E) as (d & d' & H0 & H1 & Hdom & Hr).
    simpl in Hp. rewrite H1 in Hp. simpl in Hp. specialize (Hr k).
    destruct (d' !! k) as [v'|] eqn:Ek; simpl in Hp; [|done].
    destruct (d !! k) as [v|]; simpl in Hr; [|done].
    by eapply IH.
Qed.

(** One call of [presets] in a store that holds the registry, with the memo
    of its deep copy: the objects of the memo are new, every path of the
    merged table is a path of the result and ends in the copy of its end, and
    the result leads to objects of the memo only. *)
Lemma presets_memo (bp cp : loc) (h h2 : heap) (a b : dict) :
  closed h → h !! bp = Some a → h !! cp = Some b → h ⊆ h2 →
  ∃ r h3 m,
    presets bp cp h2 = Some (VRef r, h3) ∧ h2 ⊆ h3 ∧
    (∀ l y, m !! l = Some y → (y ∉ dom h2) ∧ y ∈ dom h3) ∧
    (∀ k keys v x, dict_unpack a b !! k = Some v → getpath h v keys = Some x →
       ∃ x', getpath h3 (VRef r) (k :: keys) = Some x' ∧ rename m x = Some x') ∧
    (∀ keys l, getpath h3 (VRef r) keys = Some (VRef l) → ∃ l0, m !! l0 = Some l).
Proof.
  intros Hcl Ha Hb Hsub.
  set (mg := fresh (dom h2)).
  assert (mg ∉ dom h2) as Hmg by apply is_fresh.
  assert (mg ∉ dom h) as Hmg0.
  { intros ?. apply Hmg. eapply subseteq_dom; eauto. }
  set (h0 := <[mg := dict_unpack a b]> h).
  set (h1 := <[mg := dict_unpack a b]> h2).
  assert (map_Forall (λ _ v, val_in h v) (dict_unpack a b)) as Hvals.
  { intros k v. rewrite dict_unpack_lookup.
    destruct (b !! k) as [vb|] eqn:Ek.
    - intros [= <-]. exact (Hcl cp b Hb k vb Ek).
    - intros Hk. exact (Hcl bp a Ha k v Hk). }
  assert (closed h0) as Hcl0 by by apply closed_alloc.
  assert (h0 ⊆ h1) as H01 by by apply insert_mono.
  assert (h ⊆ h0) as Hh0.
  { apply insert_subseteq. by apply not_elem_of_dom. }
  assert (h2 ⊆ h1) as H21.
  { apply insert_subseteq. by apply not_elem_of_dom. }
  destruct (deepcopy_spec h0 h1 (VRef mg) Hcl0 H01)
    as (x' & h3 & m & Hrun & H13 & Hren & Hnew).
  { simpl. unfold h0. rewrite dom_insert_L.
    apply elem_of_union_l, elem_of_singleton. done. }
  pose proof Hren as Hren'.
  simpl in Hren. destruct (m !! mg) as [r|] eqn:Er; simpl in Hren; [|done].
  injection Hren as <-.
  assert (h0 !! mg = Some (dict_unpack a b)) as Hmerged.
  { unfold h0. by rewrite lookup_insert_eq. }
  exists r, h3, m. split_and!.
  - unfold presets. rewrite (lookup_weaken _ _ _ _ Ha Hsub).
    simpl. rewrite (lookup_weaken _ _ _ _ Hb Hsub). simpl. exact Hrun.
  - by etrans.
  - intros l y Hl. destruct (Hnew l y Hl) as (Hy & d & d' & _ & Hd' & _). split.
    + intros ?. apply Hy. eapply subseteq_dom; eauto.
    + apply elem_of_dom. eauto.
  - intros k keys v x Hk Hp.
    apply (copy_getpath h0 h3 m (λ l y Hl, proj2 (Hnew l y Hl))
             (k :: keys) (VRef mg) (VRef r) x Hren').
    simpl. rewrite Hmerged. simpl. rewrite Hk. simpl.
    rewrite (getpath_weaken h h0) by (try done; exact (Hvals k v Hk)). done.
  - intros keys l Hp.
    exact (copy_range h0 h3 m (λ l y Hl, proj2 (Hnew l y Hl))
             keys (VRef mg) (VRef r) l Hren' Hp).
Qed.

(** ** More on the constructor *)

(** X1. A backbone whose outputs have no entry [pooled_output] makes the
    constructor raise the key error of the subscript, whatever the
    hyperparameters and whatever the delegated calls would do: no layer is
    built. *)
Theorem missing_pooled_output_raises {D : Delegates} (bb : Backbone)
    (nc dr pp : val) (kw : dict) (outs : gmap string tensor) :
  call bb (input bb) = Ok outs →
  outs !! "pooled_output" = None →
  __init__ bb nc dr pp kw = Raise (KeyError "pooled_output").
Proof.
  intros Hcall Hnone. unfold __init__. rewrite Hcall. simpl.
  unfold getitem. by rewrite Hnone.
Qed.

(** X2. The dropout layer is built and applied before the dense layer is
    built: an exception of the [Dropout] constructor, or of its application
    to the pooled output, is what the constructor raises, whatever
    [num_classes] is and whatever the later calls would do. *)
Theorem dropout_rejected_first {D : Delegates} (bb : Backbone)
    (nc dr pp : val) (kw : dict) (outs : gmap string tensor)
    (pooled : tensor) (e : exn) :
  call bb (input bb) = Ok outs →
  outs !! "pooled_output" = Some pooled →
  Dropout_init dr = Raise e ∨
    (Dropout_init dr = Ok () ∧ layer_call (Dropout dr) pooled = Raise e) →
  __init__ bb nc dr pp kw = Raise e.
Proof.
  intros Hcall Hp He. unfold __init__. rewrite Hcall. simpl.
  unfold getitem. rewrite Hp. simpl.
  destruct He as [He|[Hok He]].
  - by rewrite He.
  - rewrite Hok. simpl. by rewrite He.
Qed.

(** X3. The forward graph and the stored hyperparameters depend neither on
    the preprocessor nor on the extra keyword arguments: two constructions on
    the same backbone with the same [num_classes] and [dropout] have the same
    inputs, the same outputs, and the same default loss, optimizer and
    metrics. *)
Theorem graph_independent_of_preprocessor {D : Delegates} (bb : Backbone)
    (nc dr pp1 pp2 : val) (kw1 kw2 : dict) (m1 m2 : BertClassifier) :
  __init__ bb nc dr pp1 kw1 = Ok m1 →
  __init__ bb nc dr pp2 kw2 = Ok m2 →
  inputs m1 = inputs m2 ∧ outputs m1 = outputs m2 ∧
  num_classes m1 = num_classes m2 ∧ dropout m1 = dropout m2 ∧
  c_loss <$> compiled m1 = c_loss <$> compiled m2 ∧
  c_optimizer <$> compiled m1 = c_optimizer <$> compiled m2 ∧
  c_metrics <$> compiled m1 = c_metrics <$> compiled m2.
Proof.
  intros H1 H2.
  apply init_Ok_inv in H1 as (outs1 & p1 & Hc1 & Hp1 & _ & ->).
  apply init_Ok_inv in H2 as (outs2 & p2 & Hc2 & Hp2 & _ & ->).
  assert (outs2 = outs1) as -> by congruence.
  assert (p2 = p1) as -> by congruence.
  by split_and!.
Qed.

(** X4. The configuration describes the graph: in a classifier the
    constructor returned for an integer [num_classes], the [Dense] layer has
    the number of units that [get_config] gives under [num_classes] and the
    [Dropout] layer the rate it gives under [dropout]; and this still holds
    after the classifier is compiled again. *)
Theorem config_describes_graph {D : Delegates} (bb : Backbone)
    (n : Z) (dr pp : val) (kw : dict) (m m' : BertClassifier)
    (args : compile_args) :
  __init__ bb (VInt n) dr pp kw = Ok m →
  compile m args = Ok m' →
  ∃ pooled rate,
    get_config m !! "num_classes" = Some (VInt n) ∧
    get_config m !! "dropout" = Some rate ∧
    outputs m = Apply (Dense (VInt n) bert_kernel_initializer "logits")
                      (Apply (Dropout rate) pooled) ∧
    get_config m' !! "num_classes" = Some (VInt n) ∧
    get_config m' !! "dropout" = Some rate ∧
    outputs m' = outputs m.
Proof.
  intros Hm Hm'.
  apply init_Ok_inv in Hm as (outs & pooled & _ & _ & _ & ->).
  unfold compile in Hm'.
  destruct (Model_compile _ args) as [[]|e]; simpl in Hm'; [|done].
  injection Hm' as <-.
  exists pooled, dr.
  rewrite !get_config_num_classes, !get_config_dropout. by split_and!.
Qed.

(** ** More on the preset table *)

(** X5. A name that only the backbone table has is in the dictionary
    [presets] returns, bound to a copy of the backbone table's entry. *)
Theorem presets_backbone_entry_kept (bp cp : loc) (h : heap) (a b : dict)
    (k : string) (va : val) :
  closed h → h !! bp = Some a → h !! cp = Some b →
  a !! k = Some va → b !! k = None →
  ∃ r h1 d v,
    presets bp cp h = Some (VRef r, h1) ∧
    h1 !! r = Some d ∧ d !! k = Some v ∧
    ∀ keys, observe h1 v keys = observe h va keys.
Proof.
  intros Hcl Ha Hb Hka Hkb.
  destruct (presets_spec bp cp h h a b Hcl Ha Hb (reflexivity h))
    as (r & h1 & d & Hrun & Hh1 & Hfresh & Hd & Hdom & Hobs).
  assert (is_Some (d !! k)) as [v Hv].
  { apply elem_of_dom. rewrite Hdom. apply elem_of_union_l, elem_of_dom. eauto. }
  exists r, h1, d, v. split_and!; try done.
  intros keys. specialize (Hobs k keys).
  rewrite observe_cons, Hd in Hobs. simpl in Hobs. rewrite Hv in Hobs.
  simpl in Hobs. rewrite Hobs, dict_unpack_lookup, Hkb, Hka. done.
Qed.

(** X6. Two calls of [presets] share nothing: the second returns another
    dictionary than the first, and no dictionary the first result leads to is
    one the second result leads to. *)
Theorem presets_calls_share_nothing (bp cp : loc) (h : heap) (a b : dict) :
  closed h → h !! bp = Some a → h !! cp = Some b →
  ∃ r h1 r' h2,
    presets bp cp h = Some (VRef r, h1) ∧
    presets bp cp h1 = Some (VRef r', h2) ∧
    r ≠ r' ∧
    ∀ l, reachable h1 (VRef r) l → ¬ reachable h2 (VRef r') l.
Proof.
  intros Hcl Ha Hb.
  destruct (presets_memo bp cp h h a b Hcl Ha Hb (reflexivity h))
    as (r & h1 & m & Hrun & Hh1 & Hm & _ & Hrange).
  destruct (presets_memo bp cp h h1 a b Hcl Ha Hb Hh1)
    as (r' & h2 & m' & Hrun' & _ & Hm' & _ & Hrange').
  assert (∀ l, reachable h1 (VRef r) l → l ∈ dom h1) as Hin.
  { intros l [keys Hp]. destruct (Hrange keys l Hp) as [l0 Hl0].
    by destruct (Hm l0 l Hl0). }
  assert (∀ l, reachable h2 (VRef r') l → l ∉ dom h1) as Hout.
  { intros l [keys Hp]. destruct (Hrange' keys l Hp) as [l0 Hl0].
    by destruct (Hm' l0 l Hl0). }
  exists r, h1, r', h2. split_and!; try done.
  - intros ->. apply (Hout r'); [by exists []|]. apply Hin. by exists [].
  - intros l Hl Hl'. by apply (Hout l Hl'), Hin.
Qed.

(** X7. The copy keeps the sharing of the tables: two key paths of the merged
    table that end in one and the same dictionary end, in the dictionary
    [presets] returns, in one and the same new dictionary. *)
Theorem presets_keeps_sharing (bp cp : loc) (h : heap) (a b : dict)
    (k1 k2 : string) (keys1 keys2 : list string) (v1 v2 : val) (l : loc) :
  closed h → h !! bp = Some a → h !! cp = Some b →
  dict_unpack a b !! k1 = Some v1 → getpath h v1 keys1 = Some (VRef l) →
  dict_unpack a b !! k2 = Some v2 → getpath h v2 keys2 = Some (VRef l) →
  ∃ r h1 y,
    presets bp cp h = Some (VRef r, h1) ∧
    getpath h1 (VRef r) (k1 :: keys1) = Some (VRef y) ∧
    getpath h1 (VRef r) (k2 :: keys2) = Some (VRef y) ∧
    y ∉ dom h.
Proof.
  intros Hcl Ha Hb Hk1 Hp1 Hk2 Hp2.
  destruct (presets_memo bp cp h h a b Hcl Ha Hb (reflexivity h))
    as (r & h1 & m & Hrun & Hh1 & Hm & Hpaths & _).
  destruct (Hpaths k1 keys1 v1 (VRef l) Hk1 Hp1) as (x1 & Hx1 & Hr1).
  destruct (Hpaths k2 keys2 v2 (VRef l) Hk2 Hp2) as (x2 & Hx2 & Hr2).
  simpl in Hr1, Hr2. destruct (m !! l) as [y|] eqn:E; simpl in *; [|done].
  injection Hr1 as <-. injection Hr2 as <-.
  exists r, h1, y. split_and!; try done. by destruct (Hm l y E).
Qed.

Lemma mutate_other (h : heap) (μ : mutation) (l : loc) :
  l ≠ target μ → mutate h μ !! l = h !! l.
Proof. intros Hne. destruct μ; simpl in *; by rewrite lookup_alter_ne. Qed.

Lemma mutate_all_other (μs : list mutation) (l : loc) :
  Forall (λ μ, l ≠ target μ) μs →
  ∀ h : heap, mutate_all μs h !! l = h !! l.
Proof.
  unfold mutate_all. induction 1 as [|μ μs Hμ _ IH]; intros h; [done|].
  simpl. rewrite IH. by apply mutate_other.
Qed.

(** A finished copy reads the same in every store that holds its objects as
    they are. *)
Lemma copy_frame (h0 h1 h' : heap) (m : memo) :
  (∀ l y, m !! l = Some y → copied h0 h1 m l y) →
  (∀ l y, m !! l = Some y → h' !! y = h1 !! y) →
  ∀ (keys : list string) (x x' : val),
    rename m x = Some x' → observe h' x' keys = observe h1 x' keys.
Proof.
  intros Hm Hsame keys. induction keys as [|k keys IH]; intros x x' Hren.
  - rewrite !observe_nil.
    destruct x as [|b|z|f|s|l]; simpl in Hren; try by (injection Hren as <-).
    destruct (m !! l) as [y|] eqn:E; simpl in Hren; [|done].
    injection Hren as <-. simpl. by rewrite (Hsame l y E).
  - destruct x as [|b|z|f|s|l]; simpl in Hren; try by (injection Hren as <-).
    destruct (m !! l) as [y|] eqn:E; simpl in Hren; [|done].
    injection Hren as <-. destruct (Hm l y E) as (d & d' & H0 & H1 & Hdom & Hr).
    rewrite !observe_cons, (Hsame l y E), H1. simpl. specialize (Hr k).
    destruct (d' !! k) as [w'|] eqn:Ek; simpl; [|done].
    destruct (d !! k) as [w|]; simpl in Hr; [|done].
    by apply (IH w w').
Qed.

(** X8. A dictionary [presets] returned is a snapshot: whatever is changed
    afterwards in the dictionaries that existed before the call, the two
    tables and their entries among them, the returned dictionary shows at
    every key path what it showed when it was returned. *)
Theorem presets_result_is_snapshot (bp cp : loc) (h : heap) (a b : dict) :
  closed h → h !! bp = Some a → h !! cp = Some b →
  ∃ r h1,
    presets bp cp h = Some (VRef r, h1) ∧
    ∀ μs, Forall (λ μ, target μ ∈ dom h) μs →
      ∀ keys, observe (mutate_all μs h1) (VRef r) keys
              = observe h1 (VRef r) keys.
Proof.
  intros Hcl Ha Hb.
  set (mg := fresh (dom h)).
  assert (mg ∉ dom h) as Hmg by apply is_fresh.
  set (h0 := <[mg := dict_unpack a b]> h).
  assert (map_Forall (λ _ v, val_in h v) (dict_unpack a b)) as Hvals.
  { intros k v. rewrite dict_unpack_lookup.
    destruct (b !! k) as [vb|] eqn:Ek.
    - intros [= <-]. exact (Hcl cp b Hb k vb Ek).
    - intros Hk. exact (Hcl bp a Ha k v Hk). }
  assert (closed h0) as Hcl0 by by apply closed_alloc.
  destruct (deepcopy_spec h0 h0 (VRef mg) Hcl0 (reflexivity h0))
    as (x' & h1 & m & Hrun & H01 & Hren & Hnew).
  { simpl. unfold h0. rewrite dom_insert_L.
    apply elem_of_union_l, elem_of_singleton. done. }
  pose proof Hren as Hren'.
  simpl in Hren. destruct (m !! mg) as [r|] eqn:Er; simpl in Hren; [|done].
  injection Hren as <-.
  exists r, h1. split.
  - unfold presets. rewrite Ha. simpl. rewrite Hb. simpl. exact Hrun.
  - intros μs Hμs keys.
    apply (copy_frame h0 h1 (mutate_all μs h1) m
             (λ l y Hl, proj2 (Hnew l y Hl))) with (x := VRef mg); [|done].
    intros l y Hl. apply mutate_all_other.
    eapply Forall_impl; [exact Hμs|]. intros μ Hμ ->.
    destruct (Hnew l (target μ) Hl) as [Hy _]. apply Hy.
    unfold h0. rewrite dom_insert_L. by apply elem_of_union_r.
Qed.

(** ** The further properties at work on concrete inputs *)

Lemma missing_pooled_output_raises_witness :
  __init__ (D:=checking)
    {| input := ∅; call := λ _, Ok {[ "sequence_output" := small_pooled ]} |}
    (VInt 0) (VFloat 1.5) VNone ∅
  = Raise (KeyError "pooled_output").
Proof.
  apply (missing_pooled_output_raises (D:=checking)
           {| input := ∅; call := λ _, Ok {[ "sequence_output" := small_pooled ]} |}
           (VInt 0) (VFloat 1.5) VNone ∅ {[ "sequence_output" := small_pooled ]}).
  - reflexivity.
  - reflexivity.
Defined.

Lemma dropout_rejected_first_witness :
  Dense_init (Delegates:=checking) (VInt 0) bert_kernel_initializer "logits"
    = Raise (ValueError "Received an invalid value for `units`") ∧
  __init__ (D:=checking) small_backbone (VInt 0) (VFloat 1.5) VNone ∅
    = Raise (ValueError "Invalid value received for `rate`").
Proof.
  split; [reflexivity|].
  apply (dropout_rejected_first (D:=checking) small_backbone
           (VInt 0) (VFloat 1.5) VNone ∅ small_outputs small_pooled).
  - reflexivity.
  - reflexivity.
  - left. reflexivity.
Defined.

Lemma graph_independent_of_preprocessor_witness :
  inputs small_classifier
    = inputs (constructed (D:=checking) small_backbone (VInt 4) (VFloat 0.1)
                (VStr "preprocessor") {[ "name" := VStr "other" ]} small_pooled) ∧
  outputs small_classifier
    = outputs (constructed (D:=checking) small_backbone (VInt 4) (VFloat 0.1)
                 (VStr "preprocessor") {[ "name" := VStr "other" ]} small_pooled).
Proof.
  destruct (graph_independent_of_preprocessor (D:=checking) small_backbone
              (VInt 4) (VFloat 0.1) VNone (VStr "preprocessor")
              ∅ {[ "name" := VStr "other" ]}
              small_classifier
              (constructed (D:=checking) small_backbone (VInt 4) (VFloat 0.1)
                 (VStr "preprocessor") {[ "name" := VStr "other" ]} small_pooled)
              eq_refl eq_refl) as (Hi & Ho & _).
  split; [exact Hi|exact Ho].
Defined.

Lemma config_describes_graph_witness :
  ∃ pooled rate,
    get_config (D:=checking) small_classifier !! "num_classes" = Some (VInt 4) ∧
    get_config (D:=checking) small_classifier !! "dropout" = Some rate ∧
    outputs small_classifier
      = Apply (Dense (VInt 4) bert_kernel_initializer "logits")
              (Apply (Dropout rate) pooled) ∧
    get_config (D:=checking) (set_compiled small_classifier compile_defaults)
      !! "num_classes" = Some (VInt 4) ∧
    get_config (D:=checking) (set_compiled small_classifier compile_defaults)
      !! "dropout" = Some rate ∧
    outputs (set_compiled small_classifier compile_defaults)
      = outputs small_classifier.
Proof.
  apply (config_describes_graph (D:=checking) small_backbone
           4 (VFloat 0.1) VNone ∅ small_classifier
           (set_compiled small_classifier compile_defaults) compile_defaults).
  - reflexivity.
  - reflexivity.
Defined.

Lemma presets_backbone_entry_kept_witness :
  ∃ r h1 d v,
    presets 1%positive 2%positive registry = Some (VRef r, h1) ∧
    h1 !! r = Some d ∧ d !! "bert_base" = Some v ∧
    ∀ keys, observe h1 v keys = observe registry (VRef 4%positive) keys.
Proof.
  apply (presets_backbone_entry_kept 1%positive 2%positive registry
           registry_backbone_presets registry_classifier_presets
           "bert_base" (VRef 4%positive)).
  - exact registry_closed.
  - reflexivity.
  - reflexivity.
  - reflexivity.
  - reflexivity.
Defined.

Lemma presets_calls_share_nothing_witness :
  ∃ r h1 r' h2,
    presets 1%positive 2%positive registry = Some (VRef r, h1) ∧
    presets 1%positive 2%positive h1 = Some (VRef r', h2) ∧
    r ≠ r' ∧
    ∀ l, reachable h1 (VRef r) l → ¬ reachable h2 (VRef r') l.
Proof.
  apply (presets_calls_share_nothing 1%positive 2%positive registry
           registry_backbone_presets registry_classifier_presets).
  - exact registry_closed.
  - reflexivity.
  - reflexivity.
Defined.

Lemma presets_keeps_sharing_witness :
  ∃ r h1 y,
    presets 1%positive 2%positive registry = Some (VRef r, h1) ∧
    getpath h1 (VRef r) ["bert_tiny"; "config"] = Some (VRef y) ∧
    getpath h1 (VRef r) ["bert_tiny_sst2"; "config"] = Some (VRef y) ∧
    y ∉ dom registry.
Proof.
  apply (presets_keeps_sharing 1%positive 2%positive registry
           registry_backbone_presets registry_classifier_presets
           "bert_tiny" "bert_tiny_sst2" ["config"] ["config"]
           (VRef 5%positive) (VRef 5%positive) 6%positive).
  - exact registry_closed.
  - reflexivity.
  - reflexivity.
  - reflexivity.
  - reflexivity.
  - reflexivity.
  - reflexivity.
Defined.

Lemma presets_result_is_snapshot_witness :
  ∃ r h1,
    presets 1%positive 2%positive registry = Some (VRef r, h1) ∧
    ∀ μs, Forall (λ μ, target μ ∈ dom registry) μs →
      ∀ keys, observe (mutate_all μs h1) (VRef r) keys
              = observe h1 (VRef r) keys.
Proof.
  apply (presets_result_is_snapshot 1%positive 2%positive registry
           registry_backbone_presets registry_classifier_presets).
  - exact registry_closed.
  - reflexivity.
  - reflexivity.
Defined.

(** A new classifier preset registered after a call shows in the next call
    and not in the table returned before. *)
Example registry_change_after_call :
  match presets 1%positive 2%positive registry with
  | Some (v, h1) =>
      let h2 := mutate h1 (SetItem 2%positive "bert_base_sst2" (VRef 4%positive)) in
      (observe h2 v ["bert_base_sst2"; "description"],
       match presets 1%positive 2%positive h2 with
       | Some (v', h3) => observe h3 v' ["bert_base_sst2"; "description"]
       | None => None
       end)
  | None => (None, None)
  end
  = (None, Some (Atom (VStr "base"))).
Proof. vm_compute. reflexivity. Qed.
